(** * nomad_material_processing: serial-step validation, task chaining and
      thin-film stack flattening

    A shallow embedding of the three normalisation routines of
    [nomad_material_processing/__init__.py]:

    - [SampleDeposition.is_serial]   (temporal ordering of the steps),
    - [SampleDeposition.normalize]   (the chained workflow tasks),
    - [ThinFilmStack.normalize]      (the flat list of components).

    Times are IEEE binary64 numbers, as [datetime.timestamp()], the magnitude
    of a pint quantity and numpy's default float arrays have them; Rocq's
    primitive floats are the same format with the same rounding. *)

From Stdlib Require Import List String Bool Arith Lia Floats.
Import ListNotations.

Open Scope string_scope.
Open Scope list_scope.

(** ** Data model *)

(** A [datetime]; the only thing the code asks of it is [timestamp()], the
    POSIX time in seconds. *)
Record datetime : Type := Datetime { timestamp : float }.

(** A quantity of dimension time; the only thing the code asks of it is
    [to('s').magnitude], its size in seconds. *)
Record time_quantity : Type := Seconds { to_s_magnitude : float }.

(** The fields of an [ActivityStep] that the code reads.  Both timing
    quantities are optional ([None] when unset). *)
Record ActivityStep : Type := Step {
  name : string;
  start_time : option datetime;
  duration : option time_quantity
}.

(** [nomad.datamodel.metainfo.workflow.Link]: a name and the section that is
    referred to. *)
Record Link : Type := MkLink {
  link_name : string;
  section : ActivityStep
}.

(** [nomad.datamodel.metainfo.workflow.Task]. *)
Record Task : Type := MkTask {
  task_name : string;
  inputs : list Link;
  outputs : list Link
}.

(** [SampleDeposition]: the steps it inherits from [Activity], in their
    declared order. *)
Record SampleDeposition : Type := Deposition {
  steps : list ActivityStep
}.

(** The workflow section of an entry and the archive that holds it; [tasks] is
    the only part the code writes. *)
Record Workflow : Type := MkWorkflow {
  workflow_name : option string;
  tasks : list Task
}.

Record EntryArchive : Type := MkArchive { workflow2 : Workflow }.

(** [step.to_task()] is dispatched on the concrete kind of step; the kinds
    live outside this module, so the method is an interface here.  A step is not
    changed by the call, and each call builds a new task. *)
Class StepKind : Type := { to_task : ActivityStep -> Task }.

(** Systems that a stack refers to.  No field of theirs is read here; the
    name tells them apart. *)
Record ThinFilm : Type := MkThinFilm { thin_film_name : string }.
Record Substrate : Type := MkSubstrate { substrate_name : string }.

Inductive System : Type :=
| ThinFilmSystem (film : ThinFilm)
| SubstrateSystem (sub : Substrate).

(** [SystemComponent(system=...)]. *)
Record SystemComponent : Type := MkComponent { system : System }.

(** [ThinFilmReference] and [SubstrateReference]: both quantities are
    optional. *)
Record ThinFilmReference : Type := MkThinFilmReference {
  film_lab_id : option string;
  film_reference : option ThinFilm
}.

Record SubstrateReference : Type := MkSubstrateReference {
  substrate_lab_id : option string;
  substrate_reference : option Substrate
}.

(** [ThinFilmStack]: [layers] is a repeating sub-section (a list), [substrate]
    a single sub-section ([None] when the stack has none), [components] the
    inherited repeating sub-section that [normalize] rewrites. *)
Record ThinFilmStack : Type := MkStack {
  layers : list ThinFilmReference;
  substrate : option SubstrateReference;
  components : list SystemComponent
}.

(** ** Exceptions *)

Inductive exception : Type :=
| AttributeError (attribute : string).

(** A method that mutates its receiver either returns or raises; in both cases
    the receiver keeps the assignments made so far. *)
Record completion (S : Type) : Type := Completion {
  raised : option exception;
  final : S
}.

Arguments Completion {S} raised final.
Arguments raised {S} c.
Arguments final {S} c.

Definition returns {S : Type} (self : S) : completion S :=
  Completion None self.

Definition raises {S : Type} (e : exception) (self : S) : completion S :=
  Completion (Some e) self.

(** ** numpy on one-dimensional arrays *)

Module np.

(** Element-wise binary operation on two arrays of the same shape. *)
Fixpoint elementwise {A B C : Type} (op : A -> B -> C)
  (xs : list A) (ys : list B) : list C :=
  match xs, ys with
  | x :: xs', y :: ys' => op x y :: elementwise op xs' ys'
  | _, _ => []
  end.

Definition add : list float -> list float -> list float :=
  elementwise PrimFloat.add.

Definition subtract : list float -> list float -> list float :=
  elementwise PrimFloat.sub.

(** [a < 0], element-wise. *)
Definition less_zero (a : list float) : list bool :=
  map (fun x => PrimFloat.ltb x 0%float) a.

(** [np.any]. *)
Definition any (a : list bool) : bool := existsb (fun b => b) a.

(** The slices [a[1:]] and [a[:-1]]. *)
Definition from_1 {A : Type} (a : list A) : list A := tl a.
Definition to_last {A : Type} (a : list A) : list A := removelast a.

End np.

(** ** SampleDeposition.is_serial *)

(** The [for] loop of [is_serial]: the two accumulators grow by one float per
    step; [None] stands for the early [return False]. *)
Fixpoint collect_times (todo : list ActivityStep)
  (start_times durations : list float) : option (list float * list float) :=
  match todo with
  | [] => Some (start_times, durations)
  | step :: rest =>
      match start_time step, duration step with
      | Some t, Some d =>
          collect_times rest
            (start_times ++ [timestamp t])
            (durations ++ [to_s_magnitude d])
      | _, _ => None
      end
  end.

Definition is_serial (self : SampleDeposition) : bool :=
  match collect_times (steps self) [] [] with
  | None => false
  | Some (start_times, durations) =>
      let end_times := np.add start_times durations in
      let diffs :=
        np.subtract (np.from_1 start_times) (np.to_last end_times) in
      if np.any (np.less_zero diffs) then false else true
  end.

(** ** SampleDeposition.normalize *)

Definition append_output (task : Task) (l : Link) : Task :=
  MkTask (task_name task) (inputs task) (outputs task ++ [l]).

Definition append_input (task : Task) (l : Link) : Task :=
  MkTask (task_name task) (inputs task ++ [l]) (outputs task).

(** What lines 802 to 812 leave behind: the archive, and the steps whose
    [to_task()] was called, in call order. *)
Record normalized : Type := Normalized {
  archive_after : EntryArchive;
  to_task_calls : list ActivityStep
}.

(** The assignment [archive.workflow2.tasks = ts]. *)
Definition set_tasks (archive : EntryArchive) (ts : list Task) : EntryArchive :=
  MkArchive (MkWorkflow (workflow_name (workflow2 archive)) ts).

(** What a run of a normaliser leaves behind: the receiver, the archive, and
    the steps whose [to_task()] was called, in call order. *)
Record method_run : Type := MethodRun {
  receiver_after : SampleDeposition;
  archive_left : EntryArchive;
  calls_made : list ActivityStep
}.

(** [super().normalize(archive, logger)], line 801.  The normaliser that
    [SynthesisMethod] hands down is library code, so it is an interface here:
    it may assign to the archive and to the receiver and may call
    [to_task()].  It is taken to return, and to leave the archive with its
    workflow section in place. *)
Class Inherited : Type := {
  super_normalize : SampleDeposition -> EntryArchive -> method_run
}.

Section Chain.

Context {kind : StepKind}.

(** The body of the [for] loop, for one step. *)
Definition chain_task (previous : option ActivityStep)
  (step : ActivityStep) : Task :=
  let task := to_task step in
  let task := append_output task (MkLink (name step) step) in
  match previous with
  | Some p => append_input task (MkLink (name p) p)
  | None => task
  end.

(** The [for] loop: [done] is the list [tasks] so far, [previous] the
    variable of that name, [calls] the steps asked for a task so far. *)
Fixpoint chain_loop (todo : list ActivityStep) (done : list Task)
  (previous : option ActivityStep) (calls : list ActivityStep)
  : list Task * list ActivityStep :=
  match todo with
  | [] => (done, calls)
  | step :: rest =>
      chain_loop rest (done ++ [chain_task previous step]) (Some step)
        (calls ++ [step])
  end.

(** Lines 802 to 812, the part of the method that follows the call of the
    inherited normaliser: [self] and [archive] are the receiver and the
    archive as that call leaves them, the archive with its workflow section in
    place. *)
Definition publish_if_serial (self : SampleDeposition)
  (archive : EntryArchive) : normalized :=
  if is_serial self then
    let (tasks, calls) := chain_loop (steps self) [] None [] in
    Normalized (set_tasks archive tasks) calls
  else
    Normalized archive [].

(** The task list of the workflow after lines 802 to 812 have run. *)
Definition published (self : SampleDeposition) (archive : EntryArchive)
  : list Task :=
  tasks (workflow2 (archive_after (publish_if_serial self archive))).

Context {inherited : Inherited}.

(** The whole method, lines 801 to 812. *)
Definition SampleDeposition_normalize (self : SampleDeposition)
  (archive : EntryArchive) : method_run :=
  let before := super_normalize self archive in
  let self := receiver_after before in
  let archive := archive_left before in
  if is_serial self then
    let (tasks, calls) := chain_loop (steps self) [] None [] in
    MethodRun self (set_tasks archive tasks) (calls_made before ++ calls)
  else
    MethodRun self archive (calls_made before).

End Chain.

(** ** ThinFilmStack.normalize *)

Definition set_components (self : ThinFilmStack)
  (cs : list SystemComponent) : ThinFilmStack :=
  MkStack (layers self) (substrate self) cs.

(** Truth value of a list. *)
Definition truthy {A : Type} (l : list A) : bool :=
  match l with
  | [] => false
  | _ :: _ => true
  end.

(** The comprehension
    [[SystemComponent(system=layer.reference) for layer in self.layers
      if layer.reference]]; a reference is false only when it is unset. *)
Fixpoint layer_components (ls : list ThinFilmReference)
  : list SystemComponent :=
  match ls with
  | [] => []
  | layer :: rest =>
      match film_reference layer with
      | Some film => MkComponent (ThinFilmSystem film) :: layer_components rest
      | None => layer_components rest
      end
  end.

(** The method up to the call of the inherited normaliser (library code),
    which comes last and is not reached when an exception is raised.
    [self.substrate] is [None] for a stack without that sub-section, and
    [None] has no attribute [reference]. *)
Definition ThinFilmStack_normalize (self : ThinFilmStack)
  : completion ThinFilmStack :=
  let self := set_components self [] in
  let self :=
    if truthy (layers self)
    then set_components self (layer_components (layers self))
    else self in
  match substrate self with
  | None => raises (AttributeError "reference") self
  | Some sref =>
      match substrate_reference sref with
      | Some sub =>
          returns (set_components self
                     (components self ++ [MkComponent (SubstrateSystem sub)]))
      | None => returns self
      end
  end.

(** ** Vocabulary of the timing properties *)

(** A step built with both timing quantities set. *)
Definition timed (name : string) (start dur : float) : ActivityStep :=
  Step name (Some (Datetime start)) (Some (Seconds dur)).

(** Both [start_time] and [duration] are set. *)
Definition has_timing (step : ActivityStep) : bool :=
  match start_time step, duration step with
  | Some _, Some _ => true
  | _, _ => false
  end.

(** The gap, in seconds, between the end of [prev] and the start of [next]:
    [start_time next - (start_time prev + duration prev)], in binary64. *)
Definition gap (prev next : ActivityStep) : option float :=
  match start_time prev, duration prev, start_time next with
  | Some t, Some d, Some t' =>
      Some (timestamp t' - (timestamp t + to_s_magnitude d))%float
  | _, _, _ => None
  end.

(** [prev] and [next] stand at positions [i] and [i + 1]. *)
Definition adjacent_at (l : list ActivityStep) (i : nat)
  (prev next : ActivityStep) : Prop :=
  nth_error l i = Some prev /\ nth_error l (S i) = Some next.

(** The gap is below zero: [next] starts before [prev] has ended. *)
Definition overlap (prev next : ActivityStep) : Prop :=
  exists g, gap prev next = Some g /\ (g <? 0)%float = true.

(** The gap is zero or more. *)
Definition separated (prev next : ActivityStep) : Prop :=
  exists g, gap prev next = Some g /\ (0 <=? g)%float = true.

(** The gap is exactly zero: the steps are back to back. *)
Definition back_to_back (prev next : ActivityStep) : Prop :=
  exists g, gap prev next = Some g /\ (g =? 0)%float = true.

(** The duration is set and below zero. *)
Definition negative_duration (step : ActivityStep) : Prop :=
  exists d, duration step = Some d /\ (to_s_magnitude d <? 0)%float = true.

(** Some timing quantity of the step is unset. *)
Definition lacks_timing (step : ActivityStep) : Prop :=
  start_time step = None \/ duration step = None.

(** ** Vocabulary of the task properties *)

(** A step kind whose [to_task()] returns a task that carries the step's name
    and no link. *)
Definition bare_kind : StepKind :=
  {| to_task := fun step => MkTask (name step) [] [] |}.

(** A step kind whose [to_task()] returns a task that already has links of
    the step's own: a source it consumes and a product it gives. *)
Definition equipped_kind : StepKind :=
  {| to_task := fun step =>
       MkTask (name step)
         [MkLink "source" (Step "source" None None)]
         [MkLink "product" (Step "product" None None)] |}.

(** An inherited normaliser that assigns the task list the plain tasks of
    the steps, [[step.to_task() for step in self.steps]], as the base class of
    activities does, and leaves the receiver as it is. *)
Definition plain_tasks_inherited {kind : StepKind} : Inherited :=
  {| super_normalize := fun self archive =>
       MethodRun self (set_tasks archive (map to_task (steps self)))
         (steps self) |}.

(** The refused case, read literally: when [is_serial] does not hold, the
    method leaves the task list it found and [to_task()] is not called. *)
Definition untouched_when_refused {kind : StepKind} {inherited : Inherited}
  (self : SampleDeposition) (archive : EntryArchive) : Prop :=
  is_serial (receiver_after (SampleDeposition_normalize self archive)) = false ->
  tasks (workflow2 (archive_left (SampleDeposition_normalize self archive))) =
    tasks (workflow2 archive) /\
  calls_made (SampleDeposition_normalize self archive) = [].

(** The names and the targets of the links of a chain of tasks. *)
Definition link_names (ts : list Task) : list (list string * list string) :=
  map (fun t => (map link_name (inputs t), map link_name (outputs t))) ts.

Definition link_targets (ts : list Task)
  : list (list ActivityStep * list ActivityStep) :=
  map (fun t => (map section (inputs t), map section (outputs t))) ts.

(** [l] is named after [step] and refers to it. *)
Definition links_to (l : Link) (step : ActivityStep) : Prop :=
  link_name l = name step /\ section l = step.

(** The links of the tasks, read literally: task [i] of [ts] has one output
    link and no other, to step [i]; for [i > 0] it has one input link and no
    other, to step [i - 1]; task 0 has no input link to a step of the
    sequence. *)
Definition sole_links (l : list ActivityStep) (ts : list Task) : Prop :=
  forall i step task,
    nth_error l i = Some step ->
    nth_error ts i = Some task ->
    (exists out, outputs task = [out] /\ links_to out step) /\
    (i = 0 -> forall inp, In inp (inputs task) -> ~ In (section inp) l) /\
    (forall prev, nth_error l (i - 1) = Some prev -> 0 < i ->
       exists inp, inputs task = [inp] /\ links_to inp prev).

(** ** Vocabulary of the stack properties *)

(** The systems the stack refers to, in flattening order: the layers
    whose reference is set, then the substrate if it is set. *)
Fixpoint layer_targets (ls : list ThinFilmReference) : list System :=
  match ls with
  | [] => []
  | layer :: rest =>
      match film_reference layer with
      | Some film => ThinFilmSystem film :: layer_targets rest
      | None => layer_targets rest
      end
  end.

Definition base_target (base : option SubstrateReference) : list System :=
  match base with
  | Some sref =>
      match substrate_reference sref with
      | Some sub => [SubstrateSystem sub]
      | None => []
      end
  | None => []
  end.

Definition flattened (self : ThinFilmStack) : list System :=
  layer_targets (layers self) ++ base_target (substrate self).

(** ** Values used in the concrete runs *)

Module Scenario.

Definition A : ActivityStep := timed "A" 0 10.
Definition B : ActivityStep := timed "B" 10 5.
Definition C : ActivityStep := timed "C" 15 0.

(** B starts while A is still running. *)
Definition early_B : ActivityStep := timed "B" 5 5.

(** An archive whose workflow holds a task from an earlier run. *)
Definition stale : EntryArchive :=
  MkArchive (MkWorkflow (Some "growth") [MkTask "stale" [] []]).

(** An archive whose workflow holds no task. *)
Definition blank : EntryArchive := MkArchive (MkWorkflow None []).

Definition L1 : ThinFilm := MkThinFilm "L1".
Definition L2 : ThinFilm := MkThinFilm "L2".
Definition base : Substrate := MkSubstrate "S".

End Scenario.

(** ** Auxiliary readings used in the proofs *)

(** The floats the loop of [is_serial] appends for a step with timing. *)
Definition start_seconds (step : ActivityStep) : float :=
  match start_time step with
  | Some t => timestamp t
  | None => 0%float
  end.

Definition duration_seconds (step : ActivityStep) : float :=
  match duration step with
  | Some d => to_s_magnitude d
  | None => 0%float
  end.

(** The array [diffs] of [is_serial] for steps that all have timing. *)
Definition diffs_of (l : list ActivityStep) : list float :=
  let start_times := map start_seconds l in
  let end_times := np.add start_times (map duration_seconds l) in
  np.subtract (np.from_1 start_times) (np.to_last end_times).

(** The tasks the loop of [normalize] builds for [todo], when it enters with
    [previous]: the loop without its accumulators. *)
Fixpoint chain_from {kind : StepKind} (previous : option ActivityStep)
  (todo : list ActivityStep) : list Task :=
  match todo with
  | [] => []
  | step :: rest => chain_task previous step :: chain_from (Some step) rest
  end.

(** The value of [previous] when the loop reaches position [i]. *)
Definition previous_at (l : list ActivityStep) (i : nat)
  : option ActivityStep :=
  match i with
  | 0 => None
  | S j => nth_error l j
  end.

(** ** Vocabulary of the further properties *)

(** The duration is set and is not a number. *)
Definition nan_duration (step : ActivityStep) : Prop :=
  exists d, duration step = Some d /\ to_s_magnitude d = nan.

(** The layer refers to a film. *)
Definition reference_set (layer : ThinFilmReference) : bool :=
  match film_reference layer with
  | Some _ => true
  | None => false
  end.

(** The component is a thin film. *)
Definition is_film (c : SystemComponent) : bool :=
  match system c with
  | ThinFilmSystem _ => true
  | SubstrateSystem _ => false
  end.

(** * Proofs *)

(** ** Facts about binary64 comparison *)

Section FloatOrder.

Lemma SFltb_zero_r_of_SFleb_zero_l (x : spec_float) :
  SFleb (S754_zero false) x = true -> SFltb x (S754_zero false) = false.
Proof.
  destruct x as [s | s | | s m e]; unfold SFleb, SFltb; simpl;
    try destruct s; simpl; congruence.
Qed.

Lemma SFleb_zero_l_of_SFeqb (x : spec_float) :
  SFeqb x (S754_zero false) = true -> SFleb (S754_zero false) x = true.
Proof.
  destruct x as [s | s | | s m e]; unfold SFeqb, SFleb; simpl;
    try destruct s; simpl; congruence.
Qed.

Lemma Prim2SF_zero : Prim2SF 0%float = S754_zero false.
Proof. reflexivity. Qed.

(** [0 <= x] excludes [x < 0], also for infinities and NaN. *)
Lemma not_below_zero_of_leb (x : float) :
  (0 <=? x)%float = true -> (x <? 0)%float = false.
Proof.
  rewrite leb_spec, ltb_spec, Prim2SF_zero.
  apply SFltb_zero_r_of_SFleb_zero_l.
Qed.

(** [x == 0] (either signed zero) gives [0 <= x]. *)
Lemma leb_zero_of_eqb (x : float) :
  (x =? 0)%float = true -> (0 <=? x)%float = true.
Proof.
  rewrite eqb_spec, leb_spec, Prim2SF_zero.
  apply SFleb_zero_l_of_SFeqb.
Qed.

End FloatOrder.

(** ** The loop and the arrays of [is_serial] *)

Section SerialArrays.

Lemma has_timing_lacks (step : ActivityStep) :
  has_timing step = false <-> lacks_timing step.
Proof.
  unfold has_timing, lacks_timing.
  destruct (start_time step), (duration step); split; intros H;
    try reflexivity; try discriminate; auto;
    destruct H; discriminate.
Qed.

Lemma collect_times_timed (l : list ActivityStep) :
  forall st du,
    forallb has_timing l = true ->
    collect_times l st du =
      Some (st ++ map start_seconds l, du ++ map duration_seconds l).
Proof.
  induction l as [| step rest IH]; intros st du Hall; simpl.
  - now rewrite !app_nil_r.
  - simpl in Hall. apply andb_true_iff in Hall as [Hstep Hrest].
    unfold has_timing in Hstep. unfold start_seconds, duration_seconds at 1.
    destruct (start_time step) as [t |]; [| discriminate].
    destruct (duration step) as [d |]; [| discriminate].
    rewrite (IH _ _ Hrest), <- !app_assoc. reflexivity.
Qed.

Lemma collect_times_lacking (l : list ActivityStep) :
  forall st du,
    (exists step, In step l /\ lacks_timing step) ->
    collect_times l st du = None.
Proof.
  induction l as [| step rest IH]; intros st du [bad [Hin Hbad]].
  - destruct Hin.
  - simpl. destruct Hin as [-> | Hin].
    + destruct Hbad as [-> | Hd]; [reflexivity |].
      rewrite Hd. now destruct (start_time bad).
    + destruct (start_time step); [| reflexivity].
      destruct (duration step); [| reflexivity].
      apply IH. now exists bad.
Qed.

(** The two arrays of the loop have one entry per step, so [+] is applied
    to arrays of one shape. *)
Lemma collect_times_shapes (l : list ActivityStep) :
  forall st du st' du',
    List.length st = List.length du ->
    collect_times l st du = Some (st', du') ->
    List.length st' = List.length st + List.length l /\
    List.length du' = List.length st'.
Proof.
  induction l as [| step rest IH]; intros st du st' du' Hlen Hrun; simpl in *.
  - injection Hrun as <- <-. lia.
  - destruct (start_time step) as [t |]; [| discriminate].
    destruct (duration step) as [d |]; [| discriminate].
    apply IH in Hrun; [| rewrite !length_app; simpl; lia].
    rewrite length_app in Hrun. simpl in Hrun. lia.
Qed.

Lemma elementwise_length {A B C : Type} (op : A -> B -> C) (xs : list A) :
  forall ys,
    List.length xs = List.length ys ->
    List.length (np.elementwise op xs ys) = List.length xs.
Proof.
  induction xs as [| x xs IH]; intros [| y ys] Hlen; simpl in *;
    try reflexivity; try discriminate.
  now rewrite IH by lia.
Qed.

(** So have the two slices that [-] is applied to. *)
Lemma slices_shapes (starts durs : list float) :
  List.length starts = List.length durs ->
  List.length (np.from_1 starts) =
    List.length (np.to_last (np.add starts durs)).
Proof.
  intros Hlen. unfold np.from_1, np.to_last, np.add.
  rewrite removelast_firstn_len, length_firstn, length_tl.
  rewrite (elementwise_length _ _ _ Hlen). lia.
Qed.

Lemma diffs_of_short (l : list ActivityStep) :
  List.length l <= 1 -> diffs_of l = [].
Proof.
  destruct l as [| a [| b rest]]; simpl; intros Hlen;
    try reflexivity; lia.
Qed.

Lemma diffs_of_cons (a b : ActivityStep) (rest : list ActivityStep) :
  diffs_of (a :: b :: rest) =
    (start_seconds b - (start_seconds a + duration_seconds a))%float
      :: diffs_of (b :: rest).
Proof. reflexivity. Qed.

Lemma gap_timed (a b : ActivityStep) :
  has_timing a = true -> has_timing b = true ->
  gap a b =
    Some (start_seconds b - (start_seconds a + duration_seconds a))%float.
Proof.
  unfold has_timing, gap, start_seconds, duration_seconds.
  destruct (start_time a), (duration a), (start_time b), (duration b);
    intros; try discriminate; reflexivity.
Qed.

Lemma is_serial_timed (self : SampleDeposition) :
  forallb has_timing (steps self) = true ->
  is_serial self = negb (np.any (np.less_zero (diffs_of (steps self)))).
Proof.
  intros Hall. unfold is_serial.
  rewrite (collect_times_timed _ [] [] Hall). simpl.
  fold (diffs_of (steps self)).
  now destruct (np.any (np.less_zero (diffs_of (steps self)))).
Qed.

(** [np.any(diffs < 0)] holds exactly when some adjacent pair overlaps. *)
Lemma any_less_zero_iff (l : list ActivityStep) :
  forallb has_timing l = true ->
  np.any (np.less_zero (diffs_of l)) = true <->
  exists i prev next, adjacent_at l i prev next /\ overlap prev next.
Proof.
  induction l as [| a rest IH]; intros Hall.
  - split; [discriminate |].
    intros (i & p & n & [Hp _] & _). now destruct i.
  - destruct rest as [| b rest].
    + split; [discriminate |].
      intros (i & p & n & [_ Hn] & _). destruct i as [| [| i]]; discriminate.
    + simpl in Hall. apply andb_true_iff in Hall as [Ha Hrest].
      pose proof Hrest as Hrest'. simpl in Hrest'.
      apply andb_true_iff in Hrest' as [Hb _].
      rewrite diffs_of_cons. unfold np.any, np.less_zero. simpl existsb.
      rewrite orb_true_iff. fold (np.less_zero (diffs_of (b :: rest))).
      fold (np.any (np.less_zero (diffs_of (b :: rest)))).
      rewrite (IH Hrest). split.
      * intros [Hneg | (i & p & n & [Hp Hn] & Hov)].
        -- exists 0, a, b. split; [split; reflexivity |].
           eexists. split; [apply (gap_timed _ _ Ha Hb) | exact Hneg].
        -- exists (S i), p, n. split; [split; assumption | exact Hov].
      * intros (i & p & n & [Hp Hn] & Hov). destruct i as [| i].
        -- left. simpl in Hp, Hn. injection Hp as <-. injection Hn as <-.
           destruct Hov as (g & Hg & Hneg).
           rewrite (gap_timed _ _ Ha Hb) in Hg. now injection Hg as <-.
        -- right. exists i, p, n. split; [split; assumption | exact Hov].
Qed.

End SerialArrays.

(** ** The temporal-ordering validator *)

Section Validator.

(** No adjacent pair can both overlap and be separated. *)
Lemma separated_not_overlap (prev next : ActivityStep) :
  separated prev next -> ~ overlap prev next.
Proof.
  intros (g & Hg & Hle) (g' & Hg' & Hlt).
  rewrite Hg in Hg'. injection Hg' as <-.
  rewrite (not_below_zero_of_leb g Hle) in Hlt. discriminate.
Qed.

Lemma back_to_back_separated (prev next : ActivityStep) :
  back_to_back prev next -> separated prev next.
Proof.
  intros (g & Hg & Hz). exists g. split; [exact Hg |].
  now apply leb_zero_of_eqb.
Qed.

Lemma is_serial_false_iff (self : SampleDeposition) :
  forallb has_timing (steps self) = true ->
  is_serial self = false <->
  exists i prev next,
    adjacent_at (steps self) i prev next /\ overlap prev next.
Proof.
  intros Hall. rewrite (is_serial_timed _ Hall), negb_false_iff.
  now apply any_less_zero_iff.
Qed.

Lemma is_serial_of_separated (self : SampleDeposition) :
  forallb has_timing (steps self) = true ->
  (forall i prev next,
      adjacent_at (steps self) i prev next -> separated prev next) ->
  is_serial self = true.
Proof.
  intros Hall Hsep. apply not_false_is_true. intros Hfalse.
  apply (is_serial_false_iff _ Hall) in Hfalse
    as (i & prev & next & Hadj & Hov).
  exact (separated_not_overlap prev next (Hsep _ _ _ Hadj) Hov).
Qed.

(** C1.  When every step has both [start_time] and [duration], [is_serial]
    returns [False] exactly when some adjacent pair [(i, i+1)] has
    [start_time[i+1] - (start_time[i] + duration[i]) < 0] in seconds; when
    every adjacent gap is at least zero it returns [True], and so it does
    when every adjacent gap is exactly zero. *)
Theorem is_serial_false_iff_adjacent_overlap (self : SampleDeposition) :
  forallb has_timing (steps self) = true ->
  (is_serial self = false <->
     exists i prev next,
       adjacent_at (steps self) i prev next /\ overlap prev next) /\
  ((forall i prev next,
       adjacent_at (steps self) i prev next -> separated prev next) ->
   is_serial self = true) /\
  ((forall i prev next,
       adjacent_at (steps self) i prev next -> back_to_back prev next) ->
   is_serial self = true).
Proof.
  intros Hall. split; [| split].
  - now apply is_serial_false_iff.
  - now apply is_serial_of_separated.
  - intros Hzero. apply (is_serial_of_separated _ Hall).
    intros i prev next Hadj.
    apply back_to_back_separated, (Hzero _ _ _ Hadj).
Qed.

(** C2.  When at least one step lacks [start_time] or [duration],
    [is_serial] returns [False], whatever the timing of the other steps;
    being a total function to [bool], it raises nothing. *)
Theorem is_serial_false_of_missing_timing (self : SampleDeposition) :
  (exists step, In step (steps self) /\ lacks_timing step) ->
  is_serial self = false.
Proof.
  intros Hbad. unfold is_serial.
  now rewrite (collect_times_lacking _ [] [] Hbad).
Qed.

(** C6.  [is_serial] returns [True] for no step at all and for a single
    step that has both timing quantities; a single step that lacks one of
    them is still refused. *)
Theorem is_serial_empty_and_single :
  is_serial (Deposition []) = true /\
  (forall n t d, is_serial (Deposition [Step n (Some t) (Some d)]) = true) /\
  (forall n d, is_serial (Deposition [Step n None d]) = false) /\
  (forall n t, is_serial (Deposition [Step n t None]) = false).
Proof.
  repeat split; try reflexivity.
  intros n [t |]; reflexivity.
Qed.

(** C9.  The sign of a duration is never looked at: a sequence in which
    every step has its timing and every adjacent gap is at least zero is
    accepted even though one of its durations is below zero. *)
Theorem is_serial_accepts_negative_duration (self : SampleDeposition) :
  forallb has_timing (steps self) = true ->
  (forall i prev next,
      adjacent_at (steps self) i prev next -> separated prev next) ->
  (exists step, In step (steps self) /\ negative_duration step) ->
  is_serial self = true.
Proof.
  intros Hall Hsep _. now apply is_serial_of_separated.
Qed.

End Validator.

(** *** Concrete runs of the validator *)

Section ValidatorRuns.

Import Scenario.

Example serial_scenario : is_serial (Deposition [A; B; C]) = true.
Proof. reflexivity. Qed.

Example overlap_scenario :
  is_serial (Deposition [A; early_B]) = false.
Proof. reflexivity. Qed.

Example missing_start_scenario :
  is_serial (Deposition [A; Step "B" None (Some (Seconds 5))]) = false.
Proof. reflexivity. Qed.

(** A duration that is not a number makes the gap not a number, which is
    not below zero. *)
Example nan_duration_accepted :
  is_serial (Deposition [timed "A" 0 nan; timed "B" 5 5]) = true.
Proof. reflexivity. Qed.

End ValidatorRuns.

Lemma is_serial_false_iff_adjacent_overlap_witness :
  forallb has_timing
    (steps (Deposition [timed "A" 0 10; timed "B" 5 5])) = true /\
  is_serial (Deposition [timed "A" 0 10; timed "B" 5 5]) = false.
Proof.
  split; [reflexivity |].
  apply (is_serial_false_iff_adjacent_overlap
           (Deposition [timed "A" 0 10; timed "B" 5 5])); [reflexivity |].
  exists 0, (timed "A" 0 10), (timed "B" 5 5).
  split; [split; reflexivity |].
  eexists. split; reflexivity.
Defined.

Lemma is_serial_false_of_missing_timing_witness :
  (exists step,
      In step (steps (Deposition
                 [timed "A" 0 10; Step "B" None (Some (Seconds 5))])) /\
      lacks_timing step) /\
  is_serial (Deposition
               [timed "A" 0 10; Step "B" None (Some (Seconds 5))]) = false.
Proof.
  assert (Hbad : exists step,
             In step (steps (Deposition
                        [timed "A" 0 10; Step "B" None (Some (Seconds 5))])) /\
             lacks_timing step).
  { exists (Step "B" None (Some (Seconds 5))).
    split; [right; left; reflexivity | left; reflexivity]. }
  split; [exact Hbad |].
  exact (is_serial_false_of_missing_timing _ Hbad).
Defined.

Lemma is_serial_accepts_negative_duration_witness :
  negative_duration (timed "A" 10 (-5)) /\
  gap (timed "A" 10 (-5)) (timed "B" 5 1) = Some 0%float /\
  is_serial (Deposition [timed "A" 10 (-5); timed "B" 5 1]) = true.
Proof.
  split; [| split].
  - exists (Seconds (-5)). split; reflexivity.
  - reflexivity.
  - apply (is_serial_accepts_negative_duration
             (Deposition [timed "A" 10 (-5); timed "B" 5 1])).
    + reflexivity.
    + intros i prev next [Hp Hn]. destruct i as [| [| i]]; simpl in Hp, Hn.
      * injection Hp as <-. injection Hn as <-.
        exists 0%float. split; reflexivity.
      * discriminate.
      * discriminate.
    + exists (timed "A" 10 (-5)). split; [left; reflexivity |].
      exists (Seconds (-5)). split; reflexivity.
Defined.


(** ** The task chain *)

Section TaskChain.

Context {kind : StepKind}.

Lemma chain_loop_chain_from (todo : list ActivityStep) :
  forall done previous calls,
    chain_loop todo done previous calls =
      (done ++ chain_from previous todo, calls ++ todo).
Proof.
  induction todo as [| step rest IH]; intros done previous calls; simpl.
  - now rewrite !app_nil_r.
  - now rewrite IH, <- !app_assoc.
Qed.

Lemma chain_from_length (todo : list ActivityStep) :
  forall previous,
    List.length (chain_from previous todo) = List.length todo.
Proof.
  induction todo as [| step rest IH]; intros previous; simpl;
    [reflexivity | now rewrite IH].
Qed.

(** Task [i] is built from step [i] and from the step before it, or from
    the entry value of [previous] at position 0. *)
Lemma chain_from_nth (todo : list ActivityStep) :
  forall previous i step,
    nth_error todo i = Some step ->
    nth_error (chain_from previous todo) i =
      Some (chain_task
              (match i with 0 => previous | S j => nth_error todo j end)
              step).
Proof.
  induction todo as [| first rest IH]; intros previous i step Hi.
  - now destruct i.
  - destruct i as [| j]; simpl in *.
    + now injection Hi as ->.
    + rewrite (IH (Some first) j step Hi). now destruct j.
Qed.

Lemma normalize_serial (self : SampleDeposition) (archive : EntryArchive) :
  is_serial self = true ->
  publish_if_serial self archive =
    Normalized (set_tasks archive (chain_from None (steps self))) (steps self).
Proof.
  intros Hserial. unfold publish_if_serial.
  now rewrite Hserial, chain_loop_chain_from.
Qed.

Lemma normalize_not_serial (self : SampleDeposition) (archive : EntryArchive) :
  is_serial self = false ->
  publish_if_serial self archive = Normalized archive [].
Proof.
  intros Hserial. unfold publish_if_serial. now rewrite Hserial.
Qed.

Lemma published_serial (self : SampleDeposition) (archive : EntryArchive) :
  is_serial self = true ->
  published self archive = chain_from None (steps self).
Proof.
  intros Hserial. unfold published. now rewrite normalize_serial.
Qed.

Lemma published_nth (self : SampleDeposition) (archive : EntryArchive)
  (i : nat) (step : ActivityStep) :
  is_serial self = true ->
  nth_error (steps self) i = Some step ->
  nth_error (published self archive) i =
    Some (chain_task (previous_at (steps self) i) step).
Proof.
  intros Hserial Hi. rewrite (published_serial _ _ Hserial).
  now rewrite (chain_from_nth _ None i step Hi).
Qed.

(** C3, as amended.  For a serial sequence the published list has one task
    per step, in step order.  Task [i] is the task that [to_task()] gave for
    step [i], with one link to step [i], under its name, appended to its
    outputs and, for [i > 0], one link to step [i - 1], under its name,
    appended to its inputs; nothing is appended to the inputs of task 0.
    When [to_task()] gives tasks without links, these are the only links. *)
Theorem published_chain_appends_links
  (self : SampleDeposition) (archive : EntryArchive) :
  is_serial self = true ->
  List.length (published self archive) = List.length (steps self) /\
  (forall i step,
      nth_error (steps self) i = Some step ->
      exists task,
        nth_error (published self archive) i = Some task /\
        task_name task = task_name (to_task step) /\
        outputs task = outputs (to_task step) ++ [MkLink (name step) step] /\
        (i = 0 -> inputs task = inputs (to_task step)) /\
        (forall prev,
            nth_error (steps self) (i - 1) = Some prev -> 0 < i ->
            inputs task =
              inputs (to_task step) ++ [MkLink (name prev) prev])) /\
  ((forall step, inputs (to_task step) = [] /\ outputs (to_task step) = []) ->
   sole_links (steps self) (published self archive)).
Proof.
  intros Hserial.
  assert (Hnth : forall i step,
             nth_error (steps self) i = Some step ->
             exists task,
               nth_error (published self archive) i = Some task /\
               task_name task = task_name (to_task step) /\
               outputs task =
                 outputs (to_task step) ++ [MkLink (name step) step] /\
               (i = 0 -> inputs task = inputs (to_task step)) /\
               (forall prev,
                   nth_error (steps self) (i - 1) = Some prev -> 0 < i ->
                   inputs task =
                     inputs (to_task step) ++ [MkLink (name prev) prev])).
  { intros i step Hi. eexists. split; [exact (published_nth self archive i step Hserial Hi) |].
    destruct i as [| j]; simpl.
    - repeat split; try reflexivity. intros prev _ Hlt. lia.
    - rewrite Nat.sub_0_r. unfold chain_task.
      destruct (nth_error (steps self) j) as [p |] eqn:Hp.
      + repeat split; try reflexivity; try discriminate.
        intros prev Hprev _. now injection Hprev as <-.
      + repeat split; try reflexivity; try discriminate. }
  split; [| split].
  - rewrite (published_serial _ _ Hserial). apply chain_from_length.
  - exact Hnth.
  - intros Hbare i step task Hi Htask.
    destruct (Hnth i step Hi) as (task' & Htask' & _ & Hout & Hin0 & Hin).
    rewrite Htask in Htask'. injection Htask' as <-.
    destruct (Hbare step) as [Hbi Hbo]. rewrite Hbo in Hout. rewrite Hbi in *.
    split; [| split].
    + exists (MkLink (name step) step). split; [exact Hout | split; reflexivity].
    + intros Hzero inp Hinp. rewrite (Hin0 Hzero) in Hinp. destruct Hinp.
    + intros prev Hprev Hpos. exists (MkLink (name prev) prev).
      split; [exact (Hin prev Hprev Hpos) | split; reflexivity].
Qed.

Context {inherited : Inherited}.

(** The whole method is the inherited normaliser followed by lines 802 to
    812 on what it leaves.  So what is proved of [publish_if_serial] and of
    [published] for every receiver and archive holds of the whole method, for
    the receiver and the archive that the inherited normaliser leaves. *)
Lemma SampleDeposition_normalize_eq
  (self : SampleDeposition) (archive : EntryArchive) :
  SampleDeposition_normalize self archive =
    MethodRun
      (receiver_after (super_normalize self archive))
      (archive_after
         (publish_if_serial
            (receiver_after (super_normalize self archive))
            (archive_left (super_normalize self archive))))
      (calls_made (super_normalize self archive) ++
       to_task_calls
         (publish_if_serial
            (receiver_after (super_normalize self archive))
            (archive_left (super_normalize self archive)))).
Proof.
  unfold SampleDeposition_normalize, publish_if_serial.
  destruct (is_serial (receiver_after (super_normalize self archive))).
  - now destruct (chain_loop _ [] None []).
  - now rewrite app_nil_r.
Qed.

Lemma SampleDeposition_normalize_tasks
  (self : SampleDeposition) (archive : EntryArchive) :
  tasks (workflow2 (archive_left (SampleDeposition_normalize self archive))) =
    published
      (receiver_after (super_normalize self archive))
      (archive_left (super_normalize self archive)).
Proof. now rewrite SampleDeposition_normalize_eq. Qed.

(** C5, as amended.  The inherited normaliser runs first and may itself
    assign the task list and call [to_task()].  When [is_serial] then holds,
    the task list of the workflow becomes the chain built from the steps,
    whatever it held at that point, the rest of the archive is as the
    inherited normaliser left it, and [to_task()] is called once more per
    step, in order; when it does not hold, the archive is the one the
    inherited normaliser left and [to_task()] is not called again. *)
Theorem normalize_replaces_or_keeps_what_inherited_left
  (self : SampleDeposition) (archive : EntryArchive) :
  receiver_after (SampleDeposition_normalize self archive) =
    receiver_after (super_normalize self archive) /\
  (is_serial (receiver_after (super_normalize self archive)) = true ->
   tasks (workflow2 (archive_left (SampleDeposition_normalize self archive))) =
     chain_from None (steps (receiver_after (super_normalize self archive))) /\
   archive_left (SampleDeposition_normalize self archive) =
     set_tasks (archive_left (super_normalize self archive))
       (chain_from None (steps (receiver_after (super_normalize self archive)))) /\
   calls_made (SampleDeposition_normalize self archive) =
     calls_made (super_normalize self archive) ++
     steps (receiver_after (super_normalize self archive))) /\
  (is_serial (receiver_after (super_normalize self archive)) = false ->
   archive_left (SampleDeposition_normalize self archive) =
     archive_left (super_normalize self archive) /\
   calls_made (SampleDeposition_normalize self archive) =
     calls_made (super_normalize self archive)).
Proof.
  rewrite SampleDeposition_normalize_eq. cbn [receiver_after archive_left calls_made].
  split; [reflexivity |]. split; intros Hserial.
  - rewrite (normalize_serial _ _ Hserial). cbn [archive_after to_task_calls].
    repeat split.
  - rewrite (normalize_not_serial _ _ Hserial). cbn [archive_after to_task_calls].
    now rewrite app_nil_r.
Qed.

(** C8.  For a serial sequence, running the method again on the archive it
    left, or running it on any other archive, gives the same chain: the same
    tasks, hence the same link names and the same link targets.  The task
    list is decided by lines 802 to 812, for which this is stated. *)
Theorem chain_deterministic
  (self : SampleDeposition) (archive other : EntryArchive) :
  is_serial self = true ->
  published self (archive_after (publish_if_serial self archive)) =
    published self archive /\
  link_names (published self other) = link_names (published self archive) /\
  link_targets (published self other) =
    link_targets (published self archive).
Proof.
  intros Hserial. now rewrite !(published_serial _ _ Hserial).
Qed.

(** C10.  With no steps, [is_serial] holds, the chain is empty, and the task
    list of the workflow is replaced by the empty list, whatever it held.  The
    task list is decided by lines 802 to 812, for which this is stated. *)
Theorem normalize_no_steps_empties_tasks
  (label : option string) (prior : list Task) :
  is_serial (Deposition []) = true /\
  chain_from None (steps (Deposition [])) = [] /\
  publish_if_serial (Deposition [])
    (MkArchive (MkWorkflow label prior)) =
    Normalized (MkArchive (MkWorkflow label [])) [] /\
  published (Deposition []) (MkArchive (MkWorkflow label prior)) = [].
Proof. repeat split. Qed.

End TaskChain.

(** *** Concrete runs of the method *)

Section ChainRuns.

Import Scenario.

(** Three serial steps whose tasks start without links: three tasks, and
    the task of B has the input link A and the output link B. *)
Example bare_scenario :
  @published bare_kind (Deposition [A; B; C]) stale =
    [ MkTask "A" [] [MkLink "A" A];
      MkTask "B" [MkLink "A" A] [MkLink "B" B];
      MkTask "C" [MkLink "B" B] [MkLink "C" C] ].
Proof. reflexivity. Qed.

(** The same steps when [to_task()] gives tasks that have links already. *)
Example equipped_scenario :
  nth_error (@published equipped_kind (Deposition [A; B; C]) stale) 1 =
    Some (MkTask "B"
            [MkLink "source" (Step "source" None None); MkLink "A" A]
            [MkLink "product" (Step "product" None None); MkLink "B" B]).
Proof. reflexivity. Qed.

(** Overlapping steps: lines 802 to 812 leave the archive as it is. *)
Example overlap_keeps_archive :
  @publish_if_serial bare_kind
    (Deposition [A; early_B]) stale = Normalized stale [].
Proof. reflexivity. Qed.

(** The whole method on serial steps, after an inherited normaliser that
    assigns plain tasks: the chain replaces them, and [to_task()] has been
    called twice per step. *)
Example whole_method_serial :
  @SampleDeposition_normalize bare_kind (@plain_tasks_inherited bare_kind)
    (Deposition [A; B]) stale =
  MethodRun (Deposition [A; B])
    (set_tasks stale
       [ MkTask "A" [] [MkLink "A" A];
         MkTask "B" [MkLink "A" A] [MkLink "B" B] ])
    [A; B; A; B].
Proof. reflexivity. Qed.

(** The whole method on overlapping steps: the plain tasks stay. *)
Example whole_method_overlap :
  @SampleDeposition_normalize bare_kind (@plain_tasks_inherited bare_kind)
    (Deposition [A; early_B]) stale =
  MethodRun (Deposition [A; early_B])
    (set_tasks stale [MkTask "A" [] []; MkTask "B" [] []])
    [A; early_B].
Proof. reflexivity. Qed.

End ChainRuns.

(** C3, as written, fails when [to_task()] gives a task that has an output
    link already: the task of a serial one-step sequence then has two output
    links, not one. *)
Lemma equipped_task_has_two_outputs :
  is_serial (Deposition [timed "A" 0 10]) = true /\
  ~ sole_links (steps (Deposition [timed "A" 0 10]))
      (@published equipped_kind (Deposition [timed "A" 0 10])
         Scenario.blank).
Proof.
  split; [reflexivity |].
  intros Hsole.
  destruct (Hsole 0 (timed "A" 0 10) _ eq_refl eq_refl)
    as [(out & Hout & _) _].
  discriminate Hout.
Qed.

Lemma published_chain_appends_links_witness :
  is_serial (Deposition [timed "A" 0 10; timed "B" 10 5]) = true /\
  List.length
    (@published bare_kind (Deposition [timed "A" 0 10; timed "B" 10 5])
       Scenario.blank) = 2 /\
  sole_links (steps (Deposition [timed "A" 0 10; timed "B" 10 5]))
    (@published bare_kind (Deposition [timed "A" 0 10; timed "B" 10 5])
       Scenario.blank).
Proof.
  destruct (@published_chain_appends_links bare_kind
              (Deposition [timed "A" 0 10; timed "B" 10 5])
              Scenario.blank eq_refl) as (Hlen & _ & Hsole).
  split; [reflexivity | split; [exact Hlen |]].
  apply Hsole. intros step. split; reflexivity.
Defined.

(** C5, as written, fails when the inherited normaliser assigns the task
    list: for overlapping steps the method ends with the plain tasks that the
    inherited normaliser built, not with the task list it found, and
    [to_task()] has been called. *)
Lemma refused_steps_still_get_plain_tasks :
  is_serial (Deposition [Scenario.A; Scenario.early_B]) = false /\
  tasks
    (workflow2
       (archive_left
          (@SampleDeposition_normalize bare_kind
             (@plain_tasks_inherited bare_kind)
             (Deposition [Scenario.A; Scenario.early_B]) Scenario.stale))) =
    [MkTask "A" [] []; MkTask "B" [] []] /\
  ~ @untouched_when_refused bare_kind (@plain_tasks_inherited bare_kind)
      (Deposition [Scenario.A; Scenario.early_B]) Scenario.stale.
Proof.
  split; [reflexivity | split; [reflexivity |]].
  intros Hkept. destruct (Hkept eq_refl) as [Htasks _].
  discriminate Htasks.
Qed.

Lemma normalize_replaces_or_keeps_what_inherited_left_witness :
  (is_serial (Deposition [Scenario.A; Scenario.B]) = true /\
   tasks
     (workflow2
        (archive_left
           (@SampleDeposition_normalize bare_kind
              (@plain_tasks_inherited bare_kind)
              (Deposition [Scenario.A; Scenario.B]) Scenario.stale))) =
     @chain_from bare_kind None [Scenario.A; Scenario.B]) /\
  (is_serial (Deposition [Scenario.A; Scenario.early_B]) = false /\
   archive_left
     (@SampleDeposition_normalize bare_kind
        (@plain_tasks_inherited bare_kind)
        (Deposition [Scenario.A; Scenario.early_B]) Scenario.stale) =
     set_tasks Scenario.stale [MkTask "A" [] []; MkTask "B" [] []]).
Proof.
  split; (split; [reflexivity |]).
  - exact (proj1
      (proj1 (proj2
         (@normalize_replaces_or_keeps_what_inherited_left bare_kind
            (@plain_tasks_inherited bare_kind)
            (Deposition [Scenario.A; Scenario.B]) Scenario.stale))
         eq_refl)).
  - exact (proj1
      (proj2 (proj2
         (@normalize_replaces_or_keeps_what_inherited_left bare_kind
            (@plain_tasks_inherited bare_kind)
            (Deposition [Scenario.A; Scenario.early_B]) Scenario.stale))
         eq_refl)).
Defined.

Lemma chain_deterministic_witness :
  is_serial (Deposition [timed "A" 0 10; timed "B" 10 5]) = true /\
  link_names
    (@published equipped_kind (Deposition [timed "A" 0 10; timed "B" 10 5])
       Scenario.stale) =
  link_names
    (@published equipped_kind (Deposition [timed "A" 0 10; timed "B" 10 5])
       Scenario.blank).
Proof.
  split; [reflexivity |].
  exact (proj1 (proj2
    (@chain_deterministic equipped_kind
       (Deposition [timed "A" 0 10; timed "B" 10 5])
       Scenario.blank Scenario.stale eq_refl))).
Defined.

(** ** The stack flattener *)

Section Flattener.

Lemma layer_components_targets (ls : list ThinFilmReference) :
  map system (layer_components ls) = layer_targets ls.
Proof.
  induction ls as [| layer rest IH]; simpl; [reflexivity |].
  destruct (film_reference layer); simpl; now rewrite IH.
Qed.

(** The two assignments before the substrate is looked at leave the
    components of the layers, whether or not there is a layer. *)
Lemma ThinFilmStack_normalize_eq (self : ThinFilmStack) :
  ThinFilmStack_normalize self =
    match substrate self with
    | None =>
        raises (AttributeError "reference")
          (set_components self (layer_components (layers self)))
    | Some sref =>
        returns
          (set_components self
             (layer_components (layers self) ++
              map MkComponent (base_target (Some sref))))
    end.
Proof.
  destruct self as [ls base cs]. unfold ThinFilmStack_normalize.
  destruct ls as [| layer rest]; destruct base as [[lab [sub |]] |];
    simpl; unfold set_components; simpl;
    rewrite ?app_nil_r; reflexivity.
Qed.

(** The part of C4 that the code keeps: when the stack has its substrate
    section, the method returns, and the components are the targets of the
    layer references that are set, in layer order, then the substrate if its
    reference is set; layers and substrate are as they were. *)
Lemma ThinFilmStack_normalize_with_substrate
  (self : ThinFilmStack) (sref : SubstrateReference) :
  substrate self = Some sref ->
  raised (ThinFilmStack_normalize self) = None /\
  map system (components (final (ThinFilmStack_normalize self))) =
    flattened self /\
  layers (final (ThinFilmStack_normalize self)) = layers self /\
  substrate (final (ThinFilmStack_normalize self)) = substrate self.
Proof.
  intros Hsub. rewrite ThinFilmStack_normalize_eq, Hsub. simpl.
  split; [reflexivity | split; [| split; [reflexivity | now rewrite Hsub]]].
  unfold flattened. rewrite Hsub, map_app.
  rewrite layer_components_targets. f_equal.
  unfold base_target. now destruct (substrate_reference sref).
Qed.

(** C4, where the code departs from it.  A stack without a substrate
    section makes the method raise [AttributeError] at
    [self.substrate.reference]: it does so for every list of layers, the
    empty one included, where the claim has the method return with the
    components of the layers. *)
Theorem ThinFilmStack_normalize_without_substrate_raises
  (ls : list ThinFilmReference) (cs : list SystemComponent) :
  ThinFilmStack_normalize (MkStack ls None cs) =
    raises (AttributeError "reference")
      (MkStack ls None (layer_components ls)) /\
  raised (ThinFilmStack_normalize (MkStack [] None [])) =
    Some (AttributeError "reference").
Proof.
  split; [| reflexivity].
  now rewrite ThinFilmStack_normalize_eq.
Qed.

(** C7.  Running the method on the stack it left changes nothing: the
    components, the rest of the stack and the way the method ends are the
    same as after one run; and the components after a run do not depend on
    the components before it. *)
Theorem ThinFilmStack_normalize_idempotent (self : ThinFilmStack) :
  components
    (final (ThinFilmStack_normalize (final (ThinFilmStack_normalize self)))) =
    components (final (ThinFilmStack_normalize self)) /\
  ThinFilmStack_normalize (final (ThinFilmStack_normalize self)) =
    ThinFilmStack_normalize self /\
  (forall cs,
      components (final (ThinFilmStack_normalize (set_components self cs))) =
        components (final (ThinFilmStack_normalize self))).
Proof.
  assert (Hagain :
            ThinFilmStack_normalize (final (ThinFilmStack_normalize self)) =
              ThinFilmStack_normalize self).
  { rewrite (ThinFilmStack_normalize_eq self).
    destruct (substrate self) as [sref |] eqn:Hsub; simpl;
      now rewrite ThinFilmStack_normalize_eq; simpl; rewrite Hsub. }
  split; [now rewrite Hagain | split; [exact Hagain |]].
  intros cs. now rewrite !ThinFilmStack_normalize_eq.
Qed.

End Flattener.

(** *** Concrete runs of the flattener *)

Section FlattenerRuns.

Import Scenario.

Example layered_scenario :
  ThinFilmStack_normalize
    (MkStack
       [ MkThinFilmReference None (Some L1);
         MkThinFilmReference None None;
         MkThinFilmReference None (Some L2) ]
       (Some (MkSubstrateReference None (Some base)))
       [MkComponent (SubstrateSystem (MkSubstrate "old"))]) =
  returns
    (MkStack
       [ MkThinFilmReference None (Some L1);
         MkThinFilmReference None None;
         MkThinFilmReference None (Some L2) ]
       (Some (MkSubstrateReference None (Some base)))
       [ MkComponent (ThinFilmSystem L1);
         MkComponent (ThinFilmSystem L2);
         MkComponent (SubstrateSystem base) ]).
Proof. reflexivity. Qed.

(** No layer and a substrate section whose reference is unset: no component,
    no exception. *)
Example unset_base_scenario :
  ThinFilmStack_normalize
    (MkStack [] (Some (MkSubstrateReference None None)) []) =
  returns (MkStack [] (Some (MkSubstrateReference None None)) []).
Proof. reflexivity. Qed.

(** Layers without a substrate section: the components of the layers are
    assigned before the exception is raised. *)
Example no_substrate_scenario :
  ThinFilmStack_normalize
    (MkStack [MkThinFilmReference None (Some L1)] None []) =
  raises (AttributeError "reference")
    (MkStack [MkThinFilmReference None (Some L1)] None
       [MkComponent (ThinFilmSystem L1)]).
Proof. reflexivity. Qed.

End FlattenerRuns.

(** * Further properties *)

(** ** The validator on joined and cut sequences *)

Section SerialSequences.

Lemma forallb_false_has_bad (l : list ActivityStep) :
  forallb has_timing l = false ->
  exists step, In step l /\ lacks_timing step.
Proof.
  induction l as [| a rest IH]; simpl; [discriminate |].
  intros H. apply andb_false_iff in H as [Ha | Hrest].
  - exists a. split; [now left | now apply has_timing_lacks].
  - destruct (IH Hrest) as (bad & Hin & Hbad). exists bad. auto.
Qed.

(** [is_serial] as one boolean: every step has its timing, and no entry of
    [diffs] is below zero. *)
Lemma is_serial_eq (l : list ActivityStep) :
  is_serial (Deposition l) =
    forallb has_timing l && negb (np.any (np.less_zero (diffs_of l))).
Proof.
  destruct (forallb has_timing l) eqn:Hall.
  - now rewrite (is_serial_timed (Deposition l) Hall).
  - unfold is_serial. simpl steps.
    now rewrite (collect_times_lacking l [] [] (forallb_false_has_bad l Hall)).
Qed.

Lemma diffs_of_app (l1 : list ActivityStep) :
  forall a rest,
    diffs_of (l1 ++ a :: rest) = diffs_of (l1 ++ [a]) ++ diffs_of (a :: rest).
Proof.
  induction l1 as [| x l1 IH]; intros a rest; [reflexivity |].
  destruct l1 as [| y l1].
  - reflexivity.
  - change (diffs_of (x :: y :: (l1 ++ a :: rest)) =
              diffs_of (x :: y :: (l1 ++ [a])) ++ diffs_of (a :: rest)).
    rewrite !diffs_of_cons.
    change (y :: l1 ++ a :: rest) with ((y :: l1) ++ a :: rest).
    rewrite IH. reflexivity.
Qed.

Lemma any_less_zero_app (xs ys : list float) :
  np.any (np.less_zero (xs ++ ys)) =
    np.any (np.less_zero xs) || np.any (np.less_zero ys).
Proof. unfold np.any, np.less_zero. now rewrite map_app, existsb_app. Qed.

(** The entries of [diffs] only read the start of the last step. *)
Lemma diffs_of_last (l : list ActivityStep) (x y : ActivityStep) :
  start_seconds x = start_seconds y ->
  diffs_of (l ++ [x]) = diffs_of (l ++ [y]).
Proof.
  intros Hstart. induction l as [| a l IH]; [reflexivity |].
  destruct l as [| b l].
  - simpl app. rewrite !diffs_of_cons, Hstart. reflexivity.
  - change (diffs_of (a :: b :: (l ++ [x])) = diffs_of (a :: b :: (l ++ [y]))).
    rewrite !diffs_of_cons. f_equal. exact IH.
Qed.

(** The entries of [diffs] for a sequence come first in those for any
    longer one. *)
Lemma diffs_of_app_prefix (l1 l2 : list ActivityStep) :
  exists tail, diffs_of (l1 ++ l2) = diffs_of l1 ++ tail.
Proof.
  induction l1 as [| x l1 IH].
  - now exists (diffs_of l2).
  - destruct l1 as [| y l1].
    + now exists (diffs_of (x :: l2)).
    + destruct IH as [tail Htail]. exists tail.
      change (diffs_of (x :: y :: (l1 ++ l2)) =
                diffs_of (x :: y :: l1) ++ tail).
      rewrite !diffs_of_cons. simpl app in *. now rewrite Htail.
Qed.

Lemma is_serial_app_inv (l1 l2 : list ActivityStep) :
  is_serial (Deposition (l1 ++ l2)) = true ->
  is_serial (Deposition l1) = true /\ is_serial (Deposition l2) = true.
Proof.
  rewrite !is_serial_eq, forallb_app. intros H.
  apply andb_true_iff in H as [Hall Hdiffs].
  apply andb_true_iff in Hall as [H1 H2]. rewrite H1, H2. simpl.
  destruct (diffs_of_app_prefix l1 l2) as [tail Htail].
  split.
  - rewrite Htail, any_less_zero_app, negb_orb in Hdiffs.
    now apply andb_true_iff in Hdiffs as [Hl _].
  - destruct l2 as [| a rest]; [reflexivity |].
    rewrite diffs_of_app, any_less_zero_app, negb_orb in Hdiffs.
    now apply andb_true_iff in Hdiffs as [_ Hr].
Qed.

Lemma is_serial_of_run_after (l1 l2 : list ActivityStep) :
  is_serial (Deposition (l1 ++ l2)) = true ->
  is_serial (Deposition l2) = true.
Proof. intros H. now apply is_serial_app_inv in H. Qed.

(** X1.  Cutting a sequence between two neighbours [a] and [b]: the whole
    is serial exactly when the part up to [a], the pair [a; b] and the part
    from [b] on are. *)
Theorem is_serial_join
  (l1 : list ActivityStep) (a b : ActivityStep) (l2 : list ActivityStep) :
  is_serial (Deposition (l1 ++ a :: b :: l2)) =
    is_serial (Deposition (l1 ++ [a])) &&
    is_serial (Deposition [a; b]) &&
    is_serial (Deposition (b :: l2)).
Proof.
  rewrite !is_serial_eq, diffs_of_app, diffs_of_cons, any_less_zero_app.
  rewrite !forallb_app.
  change (diffs_of [a; b]) with
    [(start_seconds b - (start_seconds a + duration_seconds a))%float].
  unfold np.any at 2 4, np.less_zero at 2 4. simpl map. simpl existsb.
  fold (np.less_zero (diffs_of (b :: l2))).
  fold (np.any (np.less_zero (diffs_of (b :: l2)))).
  simpl forallb.
  destruct (forallb has_timing l1), (has_timing a), (has_timing b),
    (forallb has_timing l2),
    (np.any (np.less_zero (diffs_of (l1 ++ [a])))),
    (start_seconds b - (start_seconds a + duration_seconds a) <? 0)%float,
    (np.any (np.less_zero (diffs_of (b :: l2)))); reflexivity.
Qed.

(** X2.  Every run of consecutive steps of a serial sequence is serial. *)
Theorem is_serial_of_consecutive_run (l1 l2 l3 : list ActivityStep) :
  is_serial (Deposition (l1 ++ l2 ++ l3)) = true ->
  is_serial (Deposition l2) = true.
Proof.
  intros H. apply is_serial_app_inv in H as [_ H].
  now apply is_serial_app_inv in H as [H _].
Qed.

(** X3.  The duration and the name of the last step are not looked at, as
    long as the duration is set. *)
Theorem is_serial_ignores_last_duration
  (l : list ActivityStep) (n n' : string) (t : datetime)
  (d d' : time_quantity) :
  is_serial (Deposition (l ++ [Step n (Some t) (Some d)])) =
    is_serial (Deposition (l ++ [Step n' (Some t) (Some d')])).
Proof.
  rewrite !is_serial_eq, !forallb_app.
  now rewrite (diffs_of_last l (Step n (Some t) (Some d))
                 (Step n' (Some t) (Some d')) eq_refl).
Qed.

End SerialSequences.

(** ** Durations that are not numbers *)

Section NanDurations.

(** A gap computed from a duration that is not a number is not below zero. *)
Lemma gap_of_nan_not_below_zero (x y : float) :
  (x - (y + nan) <? 0)%float = false.
Proof.
  rewrite ltb_spec, sub_spec, add_spec.
  change (Prim2SF nan) with S754_nan.
  replace (SF64add (Prim2SF y) S754_nan) with S754_nan
    by (now destruct (Prim2SF y)).
  replace (SF64sub (Prim2SF x) S754_nan) with S754_nan
    by (now destruct (Prim2SF x)).
  reflexivity.
Qed.

Lemma diffs_of_nan_durations (l : list ActivityStep) :
  (forall step, In step l -> nan_duration step) ->
  np.any (np.less_zero (diffs_of l)) = false.
Proof.
  induction l as [| a rest IH]; intros Hnan; [reflexivity |].
  destruct rest as [| b rest]; [reflexivity |].
  rewrite diffs_of_cons. unfold np.any, np.less_zero. simpl map. simpl existsb.
  fold (np.less_zero (diffs_of (b :: rest))).
  fold (np.any (np.less_zero (diffs_of (b :: rest)))).
  rewrite IH by (intros step Hin; apply Hnan; now right).
  destruct (Hnan a (or_introl eq_refl)) as (d & Hd & Hmag).
  unfold duration_seconds at 1. rewrite Hd, Hmag.
  now rewrite gap_of_nan_not_below_zero.
Qed.

(** X4.  When every duration is set but is not a number, the sequence is
    accepted whatever the start times are. *)
Theorem is_serial_of_nan_durations (self : SampleDeposition) :
  forallb has_timing (steps self) = true ->
  (forall step, In step (steps self) -> nan_duration step) ->
  is_serial self = true.
Proof.
  intros Hall Hnan. rewrite (is_serial_timed self Hall).
  now rewrite (diffs_of_nan_durations (steps self) Hnan).
Qed.

End NanDurations.

Lemma is_serial_of_consecutive_run_witness :
  is_serial
    (Deposition ([Scenario.A] ++ [Scenario.B] ++ [Scenario.C])) = true /\
  is_serial (Deposition [Scenario.B]) = true.
Proof.
  split; [reflexivity |].
  exact (is_serial_of_consecutive_run
           [Scenario.A] [Scenario.B] [Scenario.C] eq_refl).
Defined.

Lemma is_serial_of_nan_durations_witness :
  gap (timed "A" 10 nan) (timed "B" 5 nan) = Some nan /\
  is_serial (Deposition [timed "A" 10 nan; timed "B" 5 nan]) = true.
Proof.
  split; [reflexivity |].
  apply (is_serial_of_nan_durations
           (Deposition [timed "A" 10 nan; timed "B" 5 nan])).
  - reflexivity.
  - intros step [<- | [<- | []]]; exists (Seconds nan); split; reflexivity.
Defined.

(** ** The chain on joined sequences *)

Section ChainSequences.

Context {kind : StepKind}.

Lemma chain_task_outputs (previous : option ActivityStep)
  (step : ActivityStep) :
  outputs (chain_task previous step) =
    outputs (to_task step) ++ [MkLink (name step) step].
Proof. unfold chain_task. now destruct previous. Qed.

Lemma firstn_chain_from (l1 l2 : list ActivityStep) :
  forall previous,
    firstn (List.length l1) (chain_from previous (l1 ++ l2)) =
      chain_from previous l1.
Proof.
  induction l1 as [| a l1 IH]; intros previous; simpl; [reflexivity |].
  now rewrite IH.
Qed.

Lemma skipn_chain_from (l : list ActivityStep) (a : ActivityStep)
  (l2 : list ActivityStep) :
  forall previous,
    skipn (List.length (l ++ [a])) (chain_from previous (l ++ a :: l2)) =
      chain_from (Some a) l2.
Proof.
  induction l as [| x l IH]; intros previous; simpl; [reflexivity |].
  apply IH.
Qed.

(** X5.  In the chain of a serial sequence, the link that closes the outputs
    of a task is the link that closes the inputs of the next task, and it
    refers to the step of the first of the two. *)
Theorem consecutive_tasks_share_link
  (self : SampleDeposition) (archive : EntryArchive) (i : nat)
  (step next : ActivityStep) (task task' : Task) (dflt : Link) :
  is_serial self = true ->
  nth_error (steps self) i = Some step ->
  nth_error (steps self) (S i) = Some next ->
  nth_error (published self archive) i = Some task ->
  nth_error (published self archive) (S i) = Some task' ->
  last (inputs task') dflt = last (outputs task) dflt /\
  links_to (last (outputs task) dflt) step.
Proof.
  intros Hserial Hi Hnext Htask Htask'.
  rewrite (published_nth self archive i step Hserial Hi) in Htask.
  rewrite (published_nth self archive (S i) next Hserial Hnext) in Htask'.
  unfold previous_at in Htask'. rewrite Hi in Htask'.
  injection Htask as <-. injection Htask' as <-.
  rewrite chain_task_outputs.
  unfold append_input. cbn [inputs].
  rewrite !last_last. split; [reflexivity | split; reflexivity].
Qed.

(** X6.  Steps added at the end leave the tasks of the earlier steps as they
    were: the chain of a serial sequence starts with the chain of any of its
    initial parts. *)
Theorem published_prefix_stable
  (l1 l2 : list ActivityStep) (archive archive' : EntryArchive) :
  is_serial (Deposition (l1 ++ l2)) = true ->
  is_serial (Deposition l1) = true /\
  firstn (List.length l1) (published (Deposition (l1 ++ l2)) archive) =
    published (Deposition l1) archive'.
Proof.
  intros Hserial.
  destruct (is_serial_app_inv l1 l2 Hserial) as [H1 _].
  split; [exact H1 |].
  rewrite (published_serial _ archive Hserial).
  rewrite (published_serial _ archive' H1).
  apply firstn_chain_from.
Qed.

(** X7.  Steps put in front change one thing in the tasks of the later
    steps: the first of them gets one more input link, to the step that now
    precedes it; the other tasks are those of the later steps on their own. *)
Theorem published_suffix_gains_one_input
  (l : list ActivityStep) (a b : ActivityStep) (rest : list ActivityStep)
  (archive archive' : EntryArchive) :
  is_serial (Deposition (l ++ a :: b :: rest)) = true ->
  is_serial (Deposition (b :: rest)) = true /\
  skipn (List.length (l ++ [a]))
    (published (Deposition (l ++ a :: b :: rest)) archive) =
    match published (Deposition (b :: rest)) archive' with
    | first :: others =>
        append_input first (MkLink (name a) a) :: others
    | [] => []
    end.
Proof.
  intros Hserial.
  assert (Hrest : is_serial (Deposition (b :: rest)) = true).
  { apply (is_serial_of_run_after (l ++ [a])).
    now rewrite <- app_assoc. }
  split; [exact Hrest |].
  rewrite (published_serial _ archive Hserial).
  rewrite (published_serial _ archive' Hrest).
  simpl steps. rewrite skipn_chain_from. reflexivity.
Qed.

End ChainSequences.

Lemma consecutive_tasks_share_link_witness :
  is_serial (Deposition [Scenario.A; Scenario.B]) = true /\
  last
    (inputs
       (MkTask "B"
          [MkLink "source" (Step "source" None None);
           MkLink "A" Scenario.A]
          [MkLink "product" (Step "product" None None);
           MkLink "B" Scenario.B]))
    (MkLink "none" Scenario.C) = MkLink "A" Scenario.A.
Proof.
  split; [reflexivity |].
  destruct (@consecutive_tasks_share_link equipped_kind
              (Deposition [Scenario.A; Scenario.B]) Scenario.stale 0
              Scenario.A Scenario.B
              (MkTask "A"
                 [MkLink "source" (Step "source" None None)]
                 [MkLink "product" (Step "product" None None);
                  MkLink "A" Scenario.A])
              (MkTask "B"
                 [MkLink "source" (Step "source" None None);
                  MkLink "A" Scenario.A]
                 [MkLink "product" (Step "product" None None);
                  MkLink "B" Scenario.B])
              (MkLink "none" Scenario.C)
              eq_refl eq_refl eq_refl eq_refl eq_refl) as [Hshare _].
  exact Hshare.
Defined.

Lemma published_prefix_stable_witness :
  is_serial (Deposition ([Scenario.A; Scenario.B] ++ [Scenario.C])) = true /\
  firstn 2
    (@published bare_kind
       (Deposition ([Scenario.A; Scenario.B] ++ [Scenario.C]))
       Scenario.stale) =
    @published bare_kind (Deposition [Scenario.A; Scenario.B]) Scenario.blank.
Proof.
  split; [reflexivity |].
  exact (proj2 (@published_prefix_stable bare_kind
                  [Scenario.A; Scenario.B] [Scenario.C]
                  Scenario.stale Scenario.blank eq_refl)).
Defined.

Lemma published_suffix_gains_one_input_witness :
  is_serial
    (Deposition ([] ++ Scenario.A :: Scenario.B :: [Scenario.C])) = true /\
  skipn 1
    (@published bare_kind
       (Deposition ([] ++ Scenario.A :: Scenario.B :: [Scenario.C]))
       Scenario.stale) =
    [ MkTask "B" [MkLink "A" Scenario.A] [MkLink "B" Scenario.B];
      MkTask "C" [MkLink "B" Scenario.B] [MkLink "C" Scenario.C] ].
Proof.
  split; [reflexivity |].
  exact (proj2 (@published_suffix_gains_one_input bare_kind
                  [] Scenario.A Scenario.B [Scenario.C]
                  Scenario.stale Scenario.blank eq_refl)).
Defined.

(** ** The flattened stack *)

Section FlattenedStack.

Lemma layer_components_app (l1 l2 : list ThinFilmReference) :
  layer_components (l1 ++ l2) = layer_components l1 ++ layer_components l2.
Proof.
  induction l1 as [| layer l1 IH]; simpl; [reflexivity |].
  destruct (film_reference layer); simpl; now rewrite IH.
Qed.

Lemma layer_components_length (ls : list ThinFilmReference) :
  List.length (layer_components ls) =
    List.length (filter reference_set ls).
Proof.
  induction ls as [| layer ls IH]; simpl; [reflexivity |].
  unfold reference_set at 1.
  destruct (film_reference layer); simpl; now rewrite IH.
Qed.

Lemma layer_components_films (ls : list ThinFilmReference) :
  forallb is_film (layer_components ls) = true.
Proof.
  induction ls as [| layer ls IH]; simpl; [reflexivity |].
  destruct (film_reference layer); simpl; exact IH.
Qed.

Lemma layer_components_In (ls : list ThinFilmReference) (c : SystemComponent) :
  In c (layer_components ls) <->
  exists layer film,
    In layer ls /\ film_reference layer = Some film /\
    c = MkComponent (ThinFilmSystem film).
Proof.
  induction ls as [| layer ls IH]; simpl.
  - split; [intros [] | intros (l & f & [] & _)].
  - destruct (film_reference layer) as [film |] eqn:Href; simpl; rewrite IH.
    + split.
      * intros [<- | (l & f & Hin & Hf & ->)].
        -- exists layer, film. auto.
        -- exists l, f. auto.
      * intros (l & f & [<- | Hin] & Hf & ->).
        -- left. rewrite Href in Hf. now injection Hf as ->.
        -- right. exists l, f. auto.
    + split.
      * intros (l & f & Hin & Hf & ->). exists l, f. auto.
      * intros (l & f & [<- | Hin] & Hf & ->).
        -- rewrite Href in Hf. discriminate.
        -- exists l, f. auto.
Qed.

Lemma components_after (self : ThinFilmStack) :
  components (final (ThinFilmStack_normalize self)) =
    layer_components (layers self) ++
    map MkComponent (base_target (substrate self)).
Proof.
  rewrite ThinFilmStack_normalize_eq.
  destruct (substrate self) as [sref |]; simpl; [reflexivity |].
  now rewrite app_nil_r.
Qed.

Lemma base_target_short (base : option SubstrateReference) :
  List.length (base_target base) <= 1.
Proof.
  destruct base as [[lab [sub |]] |]; simpl; lia.
Qed.

(** X8.  The method raises exactly when the stack has no substrate section,
    and then it raises [AttributeError] for [reference]; whether it returns or
    raises, the layers and the substrate are as before. *)
Theorem ThinFilmStack_normalize_raises_iff (self : ThinFilmStack) :
  (raised (ThinFilmStack_normalize self) = None <->
     exists sref, substrate self = Some sref) /\
  (raised (ThinFilmStack_normalize self) =
     Some (AttributeError "reference") <-> substrate self = None) /\
  layers (final (ThinFilmStack_normalize self)) = layers self /\
  substrate (final (ThinFilmStack_normalize self)) = substrate self.
Proof.
  rewrite ThinFilmStack_normalize_eq.
  destruct (substrate self) as [sref |] eqn:Hsub; simpl.
  - repeat split; try discriminate; try (now rewrite Hsub).
    intros _. now exists sref.
  - repeat split; try discriminate; try (now rewrite Hsub).
    intros [sref Hs]. discriminate.
Qed.

(** X9.  After the method, the stack has one component per layer whose
    reference is set, and one more when the substrate reference is set: never
    more than the number of layers plus one. *)
Theorem components_count (self : ThinFilmStack) :
  List.length (components (final (ThinFilmStack_normalize self))) =
    List.length (filter reference_set (layers self)) +
    List.length (base_target (substrate self)) /\
  List.length (components (final (ThinFilmStack_normalize self))) <=
    List.length (layers self) + 1.
Proof.
  rewrite components_after, length_app, length_map, layer_components_length.
  split; [reflexivity |].
  pose proof (base_target_short (substrate self)).
  pose proof (filter_length_le reference_set (layers self)). lia.
Qed.

(** X10.  After the method, a component that is not a film is the last
    component, and it is the substrate the stack refers to. *)
Theorem component_not_film_is_last_substrate
  (self : ThinFilmStack) (i : nat) (c : SystemComponent) :
  nth_error (components (final (ThinFilmStack_normalize self))) i = Some c ->
  is_film c = false ->
  S i = List.length (components (final (ThinFilmStack_normalize self))) /\
  exists sref sub,
    substrate self = Some sref /\
    substrate_reference sref = Some sub /\
    c = MkComponent (SubstrateSystem sub).
Proof.
  rewrite components_after. intros Hnth Hfilm.
  destruct (Nat.lt_ge_cases i (List.length (layer_components (layers self))))
    as [Hlt | Hge].
  - rewrite nth_error_app1 in Hnth by exact Hlt.
    apply nth_error_In in Hnth.
    pose proof (layer_components_films (layers self)) as Hall.
    rewrite forallb_forall in Hall. rewrite (Hall c Hnth) in Hfilm.
    discriminate.
  - rewrite nth_error_app2 in Hnth by exact Hge.
    rewrite length_app, length_map.
    destruct (substrate self) as [[lab [sub |]] |]; simpl in *.
    + destruct (i - List.length (layer_components (layers self))) as [| k]
        eqn:Hk; simpl in Hnth.
      * injection Hnth as <-. split; [lia |]. now eexists _, sub.
      * now destruct k.
    + now destruct (i - List.length (layer_components (layers self))).
    + now destruct (i - List.length (layer_components (layers self))).
Qed.

(** X11.  After the method, a film is among the components exactly when
    some layer refers to it, and a substrate is among them exactly when the
    substrate section of the stack refers to it. *)
Theorem components_membership (self : ThinFilmStack) :
  (forall film,
      In (MkComponent (ThinFilmSystem film))
        (components (final (ThinFilmStack_normalize self))) <->
      exists layer,
        In layer (layers self) /\ film_reference layer = Some film) /\
  (forall sub,
      In (MkComponent (SubstrateSystem sub))
        (components (final (ThinFilmStack_normalize self))) <->
      exists sref,
        substrate self = Some sref /\ substrate_reference sref = Some sub).
Proof.
  rewrite components_after. split.
  - intros film. rewrite in_app_iff, layer_components_In. split.
    + intros [(layer & f & Hin & Hf & Heq) | Hbase].
      * injection Heq as ->. now exists layer.
      * destruct (substrate self) as [[lab [sub |]] |]; simpl in Hbase;
          try contradiction.
        destruct Hbase as [Heq | []]. discriminate.
    + intros (layer & Hin & Hf). left. now exists layer, film.
  - intros sub. rewrite in_app_iff, layer_components_In. split.
    + intros [(layer & f & _ & _ & Heq) | Hbase]; [discriminate |].
      destruct (substrate self) as [[lab [sub' |]] |]; simpl in Hbase;
        try contradiction.
      destruct Hbase as [Heq | []]. injection Heq as ->.
      now eexists.
    + intros (sref & -> & Hs). right. simpl. rewrite Hs. now left.
Qed.

(** X12.  Layers put under a stack add their components in front and change
    nothing else: the components for the layers [l1 ++ l2] are the components
    of a stack of [l1] whose substrate reference is unset, followed by the
    components for the layers [l2]. *)
Theorem components_of_stacked_layers
  (l1 l2 : list ThinFilmReference) (base : option SubstrateReference)
  (lab : option string) (cs cs1 cs2 : list SystemComponent) :
  components (final (ThinFilmStack_normalize (MkStack (l1 ++ l2) base cs))) =
    components
      (final (ThinFilmStack_normalize
                (MkStack l1 (Some (MkSubstrateReference lab None)) cs1))) ++
    components (final (ThinFilmStack_normalize (MkStack l2 base cs2))).
Proof.
  rewrite !components_after. simpl.
  now rewrite layer_components_app, app_nil_r, app_assoc.
Qed.

End FlattenedStack.

Lemma component_not_film_is_last_substrate_witness :
  nth_error
    (components
       (final
          (ThinFilmStack_normalize
             (MkStack [MkThinFilmReference None (Some Scenario.L1)]
                (Some (MkSubstrateReference None (Some Scenario.base)))
                [])))) 1 =
    Some (MkComponent (SubstrateSystem Scenario.base)) /\
  2 =
    List.length
      (components
         (final
            (ThinFilmStack_normalize
               (MkStack [MkThinFilmReference None (Some Scenario.L1)]
                  (Some (MkSubstrateReference None (Some Scenario.base)))
                  [])))).
Proof.
  split; [reflexivity |].
  exact (proj1
    (component_not_film_is_last_substrate
       (MkStack [MkThinFilmReference None (Some Scenario.L1)]
          (Some (MkSubstrateReference None (Some Scenario.base))) [])
       1 (MkComponent (SubstrateSystem Scenario.base)) eq_refl eq_refl)).
Defined.
